(** * Mergington High School activities API

    A shallow embedding of [src/app.py]: the in-memory activity database
    [activities] and the two handlers [get_activities] and
    [signup_for_activity], followed by the properties of the service.

    The Python module keeps one process-wide dict that the handlers read and
    mutate.  Here the dict is an explicit state of type
    [gmap string Activity]; a handler takes the state and returns what it
    returned or raised together with the state it leaves behind. *)

From stdpp Require Import gmap strings list fin_maps.
From Stdlib Require Import ZArith.

Local Open Scope string_scope.
Local Open Scope list_scope.
Local Open Scope Z_scope.

(** ** Data model *)

(** One value of the [activities] dict: a dict with the four fixed keys
    ["description"], ["schedule"], ["max_participants"], ["participants"]. *)
Record Activity := mkActivity {
  description : string;
  schedule : string;
  max_participants : Z;
  participants : list string
}.

(** [activity["participants"].append(email)]: the list grows at its end, the
    other three keys are not written.  Every activity owns its own list (the
    seed has one list literal per activity and no handler stores a list a
    second time), so the append is visible through this activity only. *)
Definition append_participant (email : string) (activity : Activity) : Activity :=
  {| description := description activity;
     schedule := schedule activity;
     max_participants := max_participants activity;
     participants := participants activity ++ [email] |}.

(** The in-memory activity database, as the module initialises it. *)
Definition activities : gmap string Activity :=
  {[ "Chess Club" :=
       {| description := "Learn strategies and compete in chess tournaments";
          schedule := "Fridays, 3:30 PM - 5:00 PM";
          max_participants := 12;
          participants := ["michael@mergington.edu"; "daniel@mergington.edu"] |};
     "Programming Class" :=
       {| description := "Learn programming fundamentals and build software projects";
          schedule := "Tuesdays and Thursdays, 3:30 PM - 4:30 PM";
          max_participants := 20;
          participants := ["emma@mergington.edu"; "sophia@mergington.edu"] |};
     "Gym Class" :=
       {| description := "Physical education and sports activities";
          schedule := "Mondays, Wednesdays, Fridays, 2:00 PM - 3:00 PM";
          max_participants := 30;
          participants := ["john@mergington.edu"; "olivia@mergington.edu"] |} ]}.

(** ** Handlers *)

(** [fastapi.HTTPException(status_code=..., detail=...)]. *)
Record HTTPException := mkHTTPException {
  status_code : Z;
  detail : string
}.

(** What a handler call ends with: a returned value or a raised exception. *)
Inductive outcome (A : Type) : Type :=
  | Return (value : A)
  | Raise (exc : HTTPException).
Arguments Return {A} value.
Arguments Raise {A} exc.

(** [get_activities()]: returns the dict itself. *)
Definition get_activities (st : gmap string Activity)
  : outcome (gmap string Activity) * gmap string Activity :=
  (Return st, st).

(** [signup_for_activity(activity_name, email)]. *)
Definition signup_for_activity (activity_name email : string)
    (st : gmap string Activity)
  : outcome (gmap string string) * gmap string Activity :=
  match st !! activity_name with
  | None =>
      (Raise {| status_code := 404; detail := "Activity not found" |}, st)
  | Some activity =>
      if decide (email ∈ participants activity) then
        (Raise {| status_code := 400; detail := "Student is already signed up" |}, st)
      else
        (Return {[ "message" := "Signed up " +:+ email +:+ " for " +:+ activity_name ]},
         <[ activity_name := append_participant email activity ]> st)
  end.

(** ** HTTP layer *)

(** JSON values, as far as the service produces them.  An object is an
    unordered collection of members, one per name. *)
#[local] Unset Elimination Schemes.
Inductive json : Type :=
  | JString (s : string)
  | JNumber (n : Z)
  | JArray (items : list json)
  | JObject (members : gmap string json).
#[local] Set Elimination Schemes.

(** The members of a JSON object; nothing for the other values. *)
Definition json_members (j : json) : gmap string json :=
  match j with
  | JObject members => members
  | _ => ∅
  end.

Record Response := mkResponse {
  status : Z;
  body : json
}.

Definition activity_json (activity : Activity) : json :=
  JObject {[ "description" := JString (description activity);
             "schedule" := JString (schedule activity);
             "max_participants" := JNumber (max_participants activity);
             "participants" := JArray (JString <$> participants activity) ]}.

Definition activities_json (st : gmap string Activity) : json :=
  JObject (activity_json <$> st).

Definition message_json (d : gmap string string) : json :=
  JObject (JString <$> d).

(** What FastAPI sends for an outcome: a returned value is encoded with
    status 200, an [HTTPException] becomes its status code with the body
    [{"detail": detail}]. *)
Definition respond {A : Type} (encode : A → json) (o : outcome A) : Response :=
  match o with
  | Return value => {| status := 200; body := encode value |}
  | Raise exc =>
      {| status := status_code exc;
         body := JObject {[ "detail" := JString (detail exc) ]} |}
  end.

(** The two routes that touch the database. *)
Inductive request : Type :=
  | GetActivities
  | PostSignup (activity_name email : string).

Definition serve (req : request) (st : gmap string Activity)
  : Response * gmap string Activity :=
  match req with
  | GetActivities =>
      let '(o, st') := get_activities st in (respond activities_json o, st')
  | PostSignup activity_name email =>
      let '(o, st') := signup_for_activity activity_name email st in
      (respond message_json o, st')
  end.

(** The state after serving a sequence of requests, oldest first. *)
Definition run (reqs : list request) (st : gmap string Activity)
  : gmap string Activity :=
  foldl (λ s req, (serve req s).2) st reqs.

(** States the process can be in: the seed, and whatever a request leaves. *)
Inductive reachable : gmap string Activity → Prop :=
  | reachable_seed : reachable activities
  | reachable_serve req st : reachable st → reachable (serve req st).2.

(** No activity lists an email twice. *)
Definition no_duplicates (st : gmap string Activity) : Prop :=
  map_Forall (λ _ activity, NoDup (participants activity)) st.

(** The responses the service can send for a signup. *)
Definition signed_up (email activity_name : string) : Response :=
  {| status := 200;
     body := JObject {[ "message" :=
       JString ("Signed up " +:+ email +:+ " for " +:+ activity_name) ]} |}.

Definition not_found : Response :=
  {| status := 404;
     body := JObject {[ "detail" := JString "Activity not found" ]} |}.

Definition already_signed_up : Response :=
  {| status := 400;
     body := JObject {[ "detail" := JString "Student is already signed up" ]} |}.

(** Ten signups fill the seed's Chess Club up to its declared maximum of 12. *)
Definition chess_club_full : gmap string Activity :=
  run (PostSignup "Chess Club" <$>
         ["s01@mergington.edu"; "s02@mergington.edu"; "s03@mergington.edu";
          "s04@mergington.edu"; "s05@mergington.edu"; "s06@mergington.edu";
          "s07@mergington.edu"; "s08@mergington.edu"; "s09@mergington.edu";
          "s10@mergington.edu"])
      activities.

(** ** What a sequence of requests adds up to *)

(** The participants list after one signup attempt with [email]: the two
    branches of [signup_for_activity] past the lookup, on the list alone. *)
Definition enroll (emails : list string) (email : string) : list string :=
  if decide (email ∈ emails) then emails else emails ++ [email].

#[global] Instance request_eq_dec : EqDecision request.
Proof. solve_decision. Defined.

(** The emails of the signup requests for [activity_name], oldest first. *)
Definition signups_for (activity_name : string) (reqs : list request) : list string :=
  omap (λ req,
          match req with
          | GetActivities => None
          | PostSignup name email =>
              if decide (name = activity_name) then Some email else None
          end) reqs.

(** ** The test suite, [tests/test_app.py] *)

(** [{**data, "participants": emails}], and as well what
    [activity["participants"] = emails] leaves in [activity]. *)
Definition set_participants (emails : list string) (data : Activity) : Activity :=
  {| description := description data;
     schedule := schedule data;
     max_participants := max_participants data;
     participants := emails |}.

(** The first half of the [reset_activities] fixture:
    [{name: {**data, "participants": list(data["participants"])}
      for name, data in activities.items()}]. *)
Definition snapshot (st : gmap string Activity) : gmap string Activity :=
  (λ data, set_participants (participants data) data) <$> st.

(** One round of the fixture's second half:
    [activities[name]["participants"] = data["participants"]].  The
    subscript [activities[name]] raises [KeyError] for a missing name; that
    is [None] here, as is every round after it. *)
Definition restore_entry (name : string) (data : Activity)
    (acc : option (gmap string Activity)) : option (gmap string Activity) :=
  st ← acc;
  activity ← st !! name;
  Some (<[ name := set_participants (participants data) activity ]> st).

(** The loop [for name, data in original.items(): ...]. *)
Definition restore (original st : gmap string Activity)
  : option (gmap string Activity) :=
  map_fold restore_entry (Some st) original.

(** A test function: it runs against the store, passes or fails, and leaves
    a store behind.  A false assertion and a raising subscript both fail
    the test. *)
Definition test_body : Type :=
  gmap string Activity → bool * gmap string Activity.

(** [name in response.json()] and [response.json()[name] == text]. *)
Definition has_member (name : string) (j : json) : bool :=
  bool_decide (name ∈ dom (json_members j)).

Definition member_is (name text : string) (j : json) : bool :=
  match json_members j !! name with
  | Some (JString s) => bool_decide (s = text)
  | _ => false
  end.

(** [email in activities[name]["participants"]]. *)
Definition is_participant (email name : string) (st : gmap string Activity) : bool :=
  match st !! name with
  | Some activity => bool_decide (email ∈ participants activity)
  | None => false
  end.

Definition test_get_activities_returns_all : test_body := λ st,
  let '(response, st) := serve GetActivities st in
  (bool_decide (status response = 200)
   && has_member "Chess Club" (body response)
   && has_member "Programming Class" (body response)
   && has_member "Gym Class" (body response),
   st).

Definition test_get_activities_contains_expected_fields : test_body := λ st,
  let '(response, st) := serve GetActivities st in
  (match json_members (body response) !! "Chess Club" with
   | Some activity =>
       has_member "description" activity
       && has_member "schedule" activity
       && has_member "max_participants" activity
       && has_member "participants" activity
   | None => false
   end,
   st).

Definition test_signup_success : test_body := λ st,
  let '(response, st) :=
    serve (PostSignup "Chess Club" "new_student@mergington.edu") st in
  (bool_decide (status response = 200)
   && is_participant "new_student@mergington.edu" "Chess Club" st,
   st).

Definition test_signup_nonexistent_activity_returns_404 : test_body := λ st,
  let '(response, st) :=
    serve (PostSignup "Nonexistent Club" "student@mergington.edu") st in
  (bool_decide (status response = 404)
   && member_is "detail" "Activity not found" (body response),
   st).

Definition test_signup_duplicate_returns_400 : test_body := λ st,
  let '(_, st) := serve (PostSignup "Chess Club" "duplicate@mergington.edu") st in
  let '(response, st) :=
    serve (PostSignup "Chess Club" "duplicate@mergington.edu") st in
  (bool_decide (status response = 400)
   && member_is "detail" "Student is already signed up" (body response),
   st).

Definition test_signup_adds_participant_to_list : test_body := λ st,
  let email := "alice@mergington.edu" in
  let '(_, st) := serve (PostSignup "Programming Class" email) st in
  (is_participant email "Programming Class" st, st).

(** The test functions of the module, by name. *)
Inductive test_name : Type :=
  | GetActivitiesReturnsAll
  | GetActivitiesContainsExpectedFields
  | SignupSuccess
  | SignupNonexistentActivityReturns404
  | SignupDuplicateReturns400
  | SignupAddsParticipantToList.

Definition test_function (name : test_name) : test_body :=
  match name with
  | GetActivitiesReturnsAll => test_get_activities_returns_all
  | GetActivitiesContainsExpectedFields => test_get_activities_contains_expected_fields
  | SignupSuccess => test_signup_success
  | SignupNonexistentActivityReturns404 => test_signup_nonexistent_activity_returns_404
  | SignupDuplicateReturns400 => test_signup_duplicate_returns_400
  | SignupAddsParticipantToList => test_signup_adds_participant_to_list
  end.

(** The autouse fixture [reset_activities] around one test: snapshot, the
    test, restore.  The store is [None] when the restore raised. *)
Definition reset_activities (test : test_body) (st : gmap string Activity)
  : bool * option (gmap string Activity) :=
  let original := snapshot st in
  let '(passed, st) := test st in
  (passed, restore original st).

(** A session: the tests in the given order, each inside the fixture and
    against the store the one before left.  It passes when every test passes
    and no restore raises; a restore that raises ends the session. *)
Fixpoint session (tests : list test_body) (st : gmap string Activity)
  : bool * option (gmap string Activity) :=
  match tests with
  | [] => (true, Some st)
  | test :: rest =>
      match reset_activities test st with
      | (passed, Some st) =>
          let '(others, final) := session rest st in (passed && others, final)
      | (_, None) => (false, None)
      end
  end.

(** The same without the fixture. *)
Fixpoint session_without_reset (tests : list test_body) (st : gmap string Activity)
  : bool * gmap string Activity :=
  match tests with
  | [] => (true, st)
  | test :: rest =>
      let '(passed, st) := test st in
      let '(others, final) := session_without_reset rest st in
      (passed && others, final)
  end.

(** ** Concrete runs on the seed *)

Example signup_new_student :
  serve (PostSignup "Chess Club" "new_student@mergington.edu") activities
  = (signed_up "new_student@mergington.edu" "Chess Club",
     <[ "Chess Club" :=
          {| description := "Learn strategies and compete in chess tournaments";
             schedule := "Fridays, 3:30 PM - 5:00 PM";
             max_participants := 12;
             participants := ["michael@mergington.edu"; "daniel@mergington.edu";
                              "new_student@mergington.edu"] |} ]> activities).
Proof. vm_compute. reflexivity. Qed.

Example signup_nonexistent_club :
  serve (PostSignup "Nonexistent Club" "student@mergington.edu") activities
  = (not_found, activities).
Proof. vm_compute. reflexivity. Qed.

Example signup_twice :
  let st := run [PostSignup "Chess Club" "duplicate@mergington.edu"] activities in
  serve (PostSignup "Chess Club" "duplicate@mergington.edu") st
  = (already_signed_up, st).
Proof. vm_compute. reflexivity. Qed.

(** ** The three paths of [signup_for_activity] *)

Section signup_paths.
Context (st : gmap string Activity) (activity_name email : string).

Lemma signup_unknown :
  st !! activity_name = None →
  signup_for_activity activity_name email st
  = (Raise {| status_code := 404; detail := "Activity not found" |}, st).
Proof. intros Hnone. unfold signup_for_activity. by rewrite Hnone. Qed.

Lemma signup_present activity :
  st !! activity_name = Some activity →
  email ∈ participants activity →
  signup_for_activity activity_name email st
  = (Raise {| status_code := 400; detail := "Student is already signed up" |}, st).
Proof.
  intros Hsome Hin. unfold signup_for_activity. rewrite Hsome.
  by rewrite decide_True.
Qed.

Lemma signup_fresh activity :
  st !! activity_name = Some activity →
  email ∉ participants activity →
  signup_for_activity activity_name email st
  = (Return {[ "message" := "Signed up " +:+ email +:+ " for " +:+ activity_name ]},
     <[ activity_name := append_participant email activity ]> st).
Proof.
  intros Hsome Hnotin. unfold signup_for_activity. rewrite Hsome.
  by rewrite decide_False.
Qed.

Lemma serve_unknown :
  st !! activity_name = None →
  serve (PostSignup activity_name email) st = (not_found, st).
Proof. intros Hnone. cbn. by rewrite signup_unknown. Qed.

Lemma serve_present activity :
  st !! activity_name = Some activity →
  email ∈ participants activity →
  serve (PostSignup activity_name email) st = (already_signed_up, st).
Proof. intros Hsome Hin. cbn. by erewrite signup_present. Qed.

Lemma serve_fresh activity :
  st !! activity_name = Some activity →
  email ∉ participants activity →
  serve (PostSignup activity_name email) st
  = (signed_up email activity_name,
     <[ activity_name := append_participant email activity ]> st).
Proof.
  intros Hsome Hnotin. cbn. erewrite signup_fresh by done. cbn.
  unfold signed_up, message_json. by rewrite map_fmap_singleton.
Qed.
End signup_paths.

(** ** Signup: success and the two errors *)

(** C1. For every store, every activity name that is a key of it and every
    email not yet in that activity's participants, the signup returns
    [{"message": "Signed up {email} for {activity_name}"}], which goes out
    with status 200, and the new store has the email appended at the end of
    that activity's participants: the earlier participants are still there,
    in their order, and the new email is last. *)
Theorem signup_success (st : gmap string Activity) (activity_name email : string)
    (activity : Activity) :
  st !! activity_name = Some activity →
  email ∉ participants activity →
  let '(result, st') := signup_for_activity activity_name email st in
  result = Return {[ "message" := "Signed up " +:+ email +:+ " for " +:+ activity_name ]}
  ∧ respond message_json result
    = {| status := 200;
         body := JObject {[ "message" :=
           JString ("Signed up " +:+ email +:+ " for " +:+ activity_name) ]} |}
  ∧ serve (PostSignup activity_name email) st = (respond message_json result, st')
  ∧ participants <$> st' !! activity_name = Some (participants activity ++ [email])
  ∧ (∀ i, i < length (participants activity) →
          (participants <$> st' !! activity_name) ≫= (.!! i) = participants activity !! i)%nat
  ∧ (participants <$> st' !! activity_name) ≫= last = Some email.
Proof.
  intros Hsome Hnotin.
  pose proof (serve_fresh st activity_name email activity Hsome Hnotin) as Hserve.
  rewrite (signup_fresh st activity_name email activity Hsome Hnotin).
  rewrite Hserve, lookup_insert_eq. cbn.
  repeat split.
  - intros i Hi. by rewrite lookup_app_l.
  - by rewrite last_snoc.
Qed.

Lemma signup_success_witness :
  let st := activities in
  let activity_name := "Chess Club" in
  let email := "new_student@mergington.edu" in
  let members := ["michael@mergington.edu"; "daniel@mergington.edu"] in
  (participants <$> st !! activity_name = Some members ∧ email ∉ members)
  ∧ (signup_for_activity activity_name email st).1
    = Return {[ "message" := "Signed up new_student@mergington.edu for Chess Club" ]}
  ∧ participants <$> (signup_for_activity activity_name email st).2 !! activity_name
    = Some ["michael@mergington.edu"; "daniel@mergington.edu";
            "new_student@mergington.edu"].
Proof.
  cbv zeta.
  assert (Hsome : activities !! "Chess Club"
    = Some {| description := "Learn strategies and compete in chess tournaments";
              schedule := "Fridays, 3:30 PM - 5:00 PM";
              max_participants := 12;
              participants := ["michael@mergington.edu"; "daniel@mergington.edu"] |})
    by reflexivity.
  assert (Hnotin : "new_student@mergington.edu"
    ∉ ["michael@mergington.edu"; "daniel@mergington.edu"])
    by (apply (bool_decide_unpack _); vm_compute; exact I).
  pose proof (signup_success activities "Chess Club" "new_student@mergington.edu"
                _ Hsome Hnotin) as Hthm.
  destruct (signup_for_activity "Chess Club" "new_student@mergington.edu" activities)
    as [result st'].
  destruct Hthm as (Hres & _ & _ & Hparts & _).
  split; [split; [by rewrite Hsome | exact Hnotin] |].
  split; [exact Hres | exact Hparts].
Defined.

(** C2. For every store and every activity name that is a key of it, a signup
    with an email already in that activity's participants raises
    [HTTPException(400, "Student is already signed up")], which goes out as
    status 400 with body [{"detail": "Student is already signed up"}], and
    leaves the store as it was; the signup fails with this error exactly
    when the email is already present. *)
Theorem signup_duplicate (st : gmap string Activity) (activity_name email : string)
    (activity : Activity) :
  st !! activity_name = Some activity →
  (email ∈ participants activity →
     signup_for_activity activity_name email st
     = (Raise {| status_code := 400; detail := "Student is already signed up" |}, st)
     ∧ serve (PostSignup activity_name email) st
       = ({| status := 400;
             body := JObject {[ "detail" := JString "Student is already signed up" ]} |},
          st))
  ∧ ((signup_for_activity activity_name email st).1
       = Raise {| status_code := 400; detail := "Student is already signed up" |}
     ↔ email ∈ participants activity)
  ∧ ((serve (PostSignup activity_name email) st).1
       = {| status := 400;
            body := JObject {[ "detail" := JString "Student is already signed up" ]} |}
     ↔ email ∈ participants activity)
  ∧ (status (serve (PostSignup activity_name email) st).1 = 400
     ↔ email ∈ participants activity).
Proof.
  intros Hsome.
  assert (Hyes : email ∈ participants activity →
     signup_for_activity activity_name email st
     = (Raise {| status_code := 400; detail := "Student is already signed up" |}, st)
     ∧ serve (PostSignup activity_name email) st = (already_signed_up, st)).
  { intros Hin. split; [by eapply signup_present | by eapply serve_present]. }
  split; [exact Hyes |].
  destruct (decide (email ∈ participants activity)) as [Hin | Hnotin].
  - destruct (Hyes Hin) as [-> ->]. by repeat split.
  - rewrite (signup_fresh _ _ _ _ Hsome Hnotin), (serve_fresh _ _ _ _ Hsome Hnotin).
    repeat split; intros H; try done; by cbn in H.
Qed.

Lemma signup_duplicate_witness :
  participants <$> activities !! "Chess Club"
    = Some ["michael@mergington.edu"; "daniel@mergington.edu"]
  ∧ "michael@mergington.edu" ∈ ["michael@mergington.edu"; "daniel@mergington.edu"]
  ∧ serve (PostSignup "Chess Club" "michael@mergington.edu") activities
    = ({| status := 400;
          body := JObject {[ "detail" := JString "Student is already signed up" ]} |},
       activities).
Proof.
  assert (Hsome : activities !! "Chess Club"
    = Some {| description := "Learn strategies and compete in chess tournaments";
              schedule := "Fridays, 3:30 PM - 5:00 PM";
              max_participants := 12;
              participants := ["michael@mergington.edu"; "daniel@mergington.edu"] |})
    by reflexivity.
  assert (Hin : "michael@mergington.edu"
    ∈ ["michael@mergington.edu"; "daniel@mergington.edu"])
    by (apply (bool_decide_unpack _); vm_compute; exact I).
  split; [by rewrite Hsome |]. split; [exact Hin |].
  exact (proj2 (proj1 (signup_duplicate activities "Chess Club"
                         "michael@mergington.edu" _ Hsome) Hin)).
Defined.

(** C3. For every store, every email and every activity name that is not a
    key of the store, the signup raises [HTTPException(404, "Activity not
    found")], which goes out as status 404 with body
    [{"detail": "Activity not found"}], and the store after the call is the
    store before it. *)
Theorem signup_not_found (st : gmap string Activity) (activity_name email : string) :
  activity_name ∉ dom st →
  signup_for_activity activity_name email st
  = (Raise {| status_code := 404; detail := "Activity not found" |}, st)
  ∧ serve (PostSignup activity_name email) st
    = ({| status := 404;
          body := JObject {[ "detail" := JString "Activity not found" ]} |},
       st).
Proof.
  intros Hnone%not_elem_of_dom.
  split; [by apply signup_unknown | by apply serve_unknown].
Qed.

Lemma signup_not_found_witness :
("Nonexistent Club" ∉ dom activities)
  ∧ serve (PostSignup "Nonexistent Club" "student@mergington.edu") activities
    = ({| status := 404;
          body := JObject {[ "detail" := JString "Activity not found" ]} |},
       activities).
Proof.
  assert (Hnotin : "Nonexistent Club" ∉ dom activities)
    by (apply not_elem_of_dom; reflexivity).
  split; [exact Hnotin |].
  exact (proj2 (signup_not_found activities "Nonexistent Club"
                  "student@mergington.edu" Hnotin)).
Defined.

(** ** The no-duplicates invariant *)

Lemma reachable_run (st : gmap string Activity) :
  reachable st ↔ ∃ reqs, st = run reqs activities.
Proof.
  split.
  - induction 1 as [| req st _ [reqs ->]].
    + by exists [].
    + exists (reqs ++ [req]). unfold run. by rewrite foldl_app.
  - intros [reqs ->]. induction reqs as [| req reqs IH] using rev_ind.
    + constructor.
    + unfold run. rewrite foldl_app. cbn. by constructor.
Qed.

Lemma no_duplicates_seed : no_duplicates activities.
Proof.
  unfold no_duplicates. apply (bool_decide_unpack _). vm_compute. exact I.
Qed.

Lemma append_participant_NoDup (email : string) (activity : Activity) :
  email ∉ participants activity →
  NoDup (participants activity) →
  NoDup (participants (append_participant email activity)).
Proof.
  intros Hnotin Hnodup. cbn. apply NoDup_app. split; [done |].
  split; [| apply NoDup_singleton].
  intros x Hx ->%list_elem_of_singleton. by apply Hnotin.
Qed.

Lemma signup_no_duplicates (activity_name email : string) (st : gmap string Activity) :
  no_duplicates st → no_duplicates (signup_for_activity activity_name email st).2.
Proof.
  intros Hinv. unfold signup_for_activity.
  destruct (st !! activity_name) as [activity |] eqn:Hsome; [| done].
  destruct (decide (email ∈ participants activity)) as [Hin | Hnotin]; [done |].
  cbn. apply map_Forall_insert_2; [| done].
  apply append_participant_NoDup; [done |]. by apply (Hinv activity_name).
Qed.

Lemma serve_no_duplicates (req : request) (st : gmap string Activity) :
  no_duplicates st → no_duplicates (serve req st).2.
Proof.
  intros Hinv. destruct req as [| activity_name email]; [done |].
  pose proof (signup_no_duplicates activity_name email st Hinv) as Hstep.
  cbn. by destruct (signup_for_activity activity_name email st).
Qed.

(** C4. Every store reachable from the seed by a finite sequence of
    [signup_for_activity] and [get_activities] calls lists no email twice in
    any activity's participants; in particular one [signup_for_activity]
    call keeps a duplicate-free store duplicate-free. *)
Theorem no_duplicates_invariant (st : gmap string Activity) :
  (reachable st → no_duplicates st)
  ∧ (∀ activity_name email,
       no_duplicates st →
       no_duplicates (signup_for_activity activity_name email st).2)
  ∧ (∀ reqs, no_duplicates (run reqs activities)).
Proof.
  assert (Hreach : ∀ s, reachable s → no_duplicates s).
  { induction 1 as [| req s _ IH]; [apply no_duplicates_seed |].
    by apply serve_no_duplicates. }
  split; [apply Hreach |]. split.
  - intros activity_name email. apply signup_no_duplicates.
  - intros reqs. apply Hreach, reachable_run. by exists reqs.
Qed.

Lemma no_duplicates_invariant_witness :
  let st := run [PostSignup "Chess Club" "new_student@mergington.edu"; GetActivities]
                activities in
  reachable st
  ∧ no_duplicates st
  ∧ no_duplicates (signup_for_activity "Chess Club" "new_student@mergington.edu" st).2.
Proof.
  cbv zeta.
  set (st := run [PostSignup "Chess Club" "new_student@mergington.edu"; GetActivities]
                 activities).
  assert (Hreach : reachable st).
  { exact (reachable_serve GetActivities _
             (reachable_serve (PostSignup "Chess Club" "new_student@mergington.edu") _
                reachable_seed)). }
  pose proof (proj1 (no_duplicates_invariant st) Hreach) as Hinv.
  split; [exact Hreach |]. split; [exact Hinv |].
  exact (proj1 (proj2 (no_duplicates_invariant st)) _ _ Hinv).
Defined.

(** ** No capacity check *)

(** C5. [signup_for_activity] never compares the number of participants
    with [max_participants]: for every store, every activity name in it and
    every email not among that activity's participants, the signup succeeds
    with status 200 and appends the email even when the participants list
    is already as long as [max_participants] or longer. *)
Theorem signup_ignores_capacity (st : gmap string Activity)
    (activity_name email : string) (activity : Activity) :
  st !! activity_name = Some activity →
  email ∉ participants activity →
  max_participants activity ≤ Z.of_nat (length (participants activity)) →
  let '(response, st') := serve (PostSignup activity_name email) st in
  status response = 200
  ∧ response
    = {| status := 200;
         body := JObject {[ "message" :=
           JString ("Signed up " +:+ email +:+ " for " +:+ activity_name) ]} |}
  ∧ ∃ activity',
      st' !! activity_name = Some activity'
      ∧ participants activity' = participants activity ++ [email]
      ∧ max_participants activity' = max_participants activity
      ∧ max_participants activity' < Z.of_nat (length (participants activity')).
Proof.
  intros Hsome Hnotin Hfull.
  rewrite (serve_fresh _ _ _ _ Hsome Hnotin).
  split; [done |]. split; [done |].
  exists (append_participant email activity).
  rewrite lookup_insert_eq. repeat split.
  cbn. rewrite length_app. cbn. lia.
Qed.

Lemma signup_ignores_capacity_witness :
  (length <$> (participants <$> chess_club_full !! "Chess Club") = Some 12%nat
   ∧ max_participants <$> chess_club_full !! "Chess Club" = Some 12)
  ∧ status (serve (PostSignup "Chess Club" "s13@mergington.edu") chess_club_full).1 = 200
  ∧ length <$> (participants <$>
      (serve (PostSignup "Chess Club" "s13@mergington.edu") chess_club_full).2
        !! "Chess Club") = Some 13%nat.
Proof.
  destruct (chess_club_full !! "Chess Club") as [activity |] eqn:Hsome;
    [| exfalso; vm_compute in Hsome; discriminate Hsome].
  assert (Hparts : participants activity
    = ["michael@mergington.edu"; "daniel@mergington.edu";
       "s01@mergington.edu"; "s02@mergington.edu"; "s03@mergington.edu";
       "s04@mergington.edu"; "s05@mergington.edu"; "s06@mergington.edu";
       "s07@mergington.edu"; "s08@mergington.edu"; "s09@mergington.edu";
       "s10@mergington.edu"]).
  { vm_compute in Hsome. injection Hsome as <-. reflexivity. }
  assert (Hmax : max_participants activity = 12).
  { vm_compute in Hsome. injection Hsome as <-. reflexivity. }
  assert (Hnotin : "s13@mergington.edu" ∉ participants activity).
  { rewrite Hparts. apply (bool_decide_unpack _). vm_compute. exact I. }
  assert (Hfull : max_participants activity ≤ Z.of_nat (length (participants activity))).
  { rewrite Hmax, Hparts. vm_compute. discriminate. }
  pose proof (signup_ignores_capacity chess_club_full "Chess Club"
                "s13@mergington.edu" activity Hsome Hnotin Hfull) as Hthm.
  destruct (serve (PostSignup "Chess Club" "s13@mergington.edu") chess_club_full)
    as [response st'].
  destruct Hthm as (Hstatus & _ & activity' & Hsome' & Hparts' & _).
  split; [split; cbn; [by rewrite Hparts | by rewrite Hmax] |].
  split; [exact Hstatus |].
  cbn. rewrite Hsome'. cbn. by rewrite Hparts', Hparts.
Defined.

(** ** Listing the activities *)

Lemma activity_json_members (activity : Activity) :
  ∃ members,
    activity_json activity = JObject members
    ∧ dom members
      = ({[ "description"; "schedule"; "max_participants"; "participants" ]}
           : gset string)
    ∧ members !! "description" = Some (JString (description activity))
    ∧ members !! "schedule" = Some (JString (schedule activity))
    ∧ members !! "max_participants" = Some (JNumber (max_participants activity))
    ∧ members !! "participants" = Some (JArray (JString <$> participants activity)).
Proof.
  eexists. split; [reflexivity |]. split; [| by repeat split].
  rewrite !dom_insert_L, dom_singleton_L. set_solver.
Qed.

(** C6. [get_activities] leaves the store as it is and returns the whole
    current store: the response has status 200 and one member per activity
    name, each an object with exactly the four fields [description],
    [schedule], [max_participants] and [participants], holding that
    activity's values.  Hence two calls in a row, with no signup between
    them, send the same data. *)
Theorem get_activities_pure (st : gmap string Activity) :
  get_activities st = (Return st, st)
  ∧ serve GetActivities st = ({| status := 200; body := activities_json st |}, st)
  ∧ dom (json_members (activities_json st)) = dom st
  ∧ (∀ activity_name activity,
       st !! activity_name = Some activity →
       ∃ members,
         json_members (activities_json st) !! activity_name = Some (JObject members)
         ∧ dom members
           = ({[ "description"; "schedule"; "max_participants"; "participants" ]}
                : gset string)
         ∧ members !! "description" = Some (JString (description activity))
         ∧ members !! "schedule" = Some (JString (schedule activity))
         ∧ members !! "max_participants" = Some (JNumber (max_participants activity))
         ∧ members !! "participants"
           = Some (JArray (JString <$> participants activity)))
  ∧ (let '(first, st1) := serve GetActivities st in
     let '(second, st2) := serve GetActivities st1 in
     first = second ∧ st1 = st ∧ st2 = st).
Proof.
  split; [done |]. split; [done |]. split; [| split; [| done]].
  - cbn. apply dom_fmap_L.
  - intros activity_name activity Hsome.
    destruct (activity_json_members activity) as (members & Hjson & Hfields).
    exists members. split; [| exact Hfields].
    cbn. by rewrite lookup_fmap, Hsome, <- Hjson.
Qed.

Lemma get_activities_pure_witness :
  serve GetActivities activities
    = ({| status := 200; body := activities_json activities |}, activities)
  ∧ ∃ members,
      json_members (activities_json activities) !! "Gym Class" = Some (JObject members)
      ∧ members !! "max_participants" = Some (JNumber 30)
      ∧ members !! "participants"
        = Some (JArray [JString "john@mergington.edu"; JString "olivia@mergington.edu"]).
Proof.
  assert (Hsome : activities !! "Gym Class"
    = Some {| description := "Physical education and sports activities";
              schedule := "Mondays, Wednesdays, Fridays, 2:00 PM - 3:00 PM";
              max_participants := 30;
              participants := ["john@mergington.edu"; "olivia@mergington.edu"] |})
    by reflexivity.
  destruct (get_activities_pure activities) as (_ & Hserve & _ & Hfields & _).
  split; [exact Hserve |].
  destruct (Hfields _ _ Hsome) as (members & Hmember & _ & _ & _ & Hmax & Hparts).
  exists members. split; [exact Hmember |]. split; [exact Hmax | exact Hparts].
Defined.

(** ** The seed *)

Lemma dom_activities :
  dom activities = {[ "Chess Club"; "Programming Class"; "Gym Class" ]}.
Proof. unfold activities. rewrite !dom_insert_L, dom_singleton_L. set_solver. Qed.

(** C7. At process start the store holds exactly three activities:
    "Chess Club" with its description, its schedule, [max_participants] 12
    and participants michael then daniel; "Programming Class" with
    [max_participants] 20 and participants emma then sophia; "Gym Class"
    with [max_participants] 30 and participants john then olivia. *)
Theorem seed_activities :
  dom activities = {[ "Chess Club"; "Programming Class"; "Gym Class" ]}
  ∧ size activities = 3%nat
  ∧ activities !! "Chess Club"
    = Some {| description := "Learn strategies and compete in chess tournaments";
              schedule := "Fridays, 3:30 PM - 5:00 PM";
              max_participants := 12;
              participants := ["michael@mergington.edu"; "daniel@mergington.edu"] |}
  ∧ max_participants <$> activities !! "Programming Class" = Some 20
  ∧ participants <$> activities !! "Programming Class"
    = Some ["emma@mergington.edu"; "sophia@mergington.edu"]
  ∧ max_participants <$> activities !! "Gym Class" = Some 30
  ∧ participants <$> activities !! "Gym Class"
    = Some ["john@mergington.edu"; "olivia@mergington.edu"].
Proof. split; [apply dom_activities | by repeat split]. Qed.

(** ** What a successful signup leaves alone *)

(** C8. A successful signup for activity A writes A's participants and
    nothing else: every other activity is exactly as before, no activity
    appears or disappears, and A keeps its description, schedule and
    [max_participants]. *)
Theorem signup_frame (st : gmap string Activity) (activity_name email : string)
    (activity : Activity) :
  st !! activity_name = Some activity →
  email ∉ participants activity →
  let st' := (signup_for_activity activity_name email st).2 in
  (∀ other, other ≠ activity_name → st' !! other = st !! other)
  ∧ dom st' = dom st
  ∧ ∃ activity',
      st' !! activity_name = Some activity'
      ∧ description activity' = description activity
      ∧ schedule activity' = schedule activity
      ∧ max_participants activity' = max_participants activity.
Proof.
  intros Hsome Hnotin. cbv zeta.
  rewrite (signup_fresh _ _ _ _ Hsome Hnotin). cbn.
  split; [| split].
  - intros other Hother. by rewrite lookup_insert_ne.
  - apply dom_insert_lookup_L. by rewrite Hsome.
  - exists (append_participant email activity).
    by rewrite lookup_insert_eq.
Qed.

Lemma signup_frame_witness :
  let st' := (signup_for_activity "Chess Club" "new_student@mergington.edu"
                activities).2 in
  (participants <$> activities !! "Chess Club"
     = Some ["michael@mergington.edu"; "daniel@mergington.edu"]
   ∧ "new_student@mergington.edu"
       ∉ ["michael@mergington.edu"; "daniel@mergington.edu"])
  ∧ st' !! "Gym Class" = activities !! "Gym Class"
  ∧ st' !! "Programming Class" = activities !! "Programming Class"
  ∧ max_participants <$> st' !! "Chess Club" = Some 12.
Proof.
  cbv zeta.
  assert (Hsome : activities !! "Chess Club"
    = Some {| description := "Learn strategies and compete in chess tournaments";
              schedule := "Fridays, 3:30 PM - 5:00 PM";
              max_participants := 12;
              participants := ["michael@mergington.edu"; "daniel@mergington.edu"] |})
    by reflexivity.
  assert (Hnotin : "new_student@mergington.edu"
    ∉ ["michael@mergington.edu"; "daniel@mergington.edu"])
    by (apply (bool_decide_unpack _); vm_compute; exact I).
  destruct (signup_frame activities "Chess Club" "new_student@mergington.edu"
              _ Hsome Hnotin) as (Hother & _ & activity' & Hsome' & _ & _ & Hmax).
  split; [split; [by rewrite Hsome | exact Hnotin] |].
  split; [by apply Hother |]. split; [by apply Hother |].
  rewrite Hsome'. cbn. by rewrite Hmax.
Defined.

(** ** Uniqueness is per activity *)

Lemma signup_reads_one_activity (st1 st2 : gmap string Activity)
    (activity_name email : string) :
  st1 !! activity_name = st2 !! activity_name →
  (signup_for_activity activity_name email st1).1
  = (signup_for_activity activity_name email st2).1.
Proof.
  intros Hsame. unfold signup_for_activity. rewrite Hsame.
  destruct (st2 !! activity_name) as [activity |]; [| done].
  by destruct (decide (email ∈ participants activity)).
Qed.

Lemma seed_cross_signup (enrolled target email : string) (activity : Activity) :
  activities !! enrolled = Some activity →
  email ∈ participants activity →
  target ∈ dom activities →
  target ≠ enrolled →
  status (serve (PostSignup target email) activities).1 = 200.
Proof.
  intros Hsome Hin Htarget Hne.
  assert (Henrolled : enrolled ∈ dom activities) by (apply elem_of_dom; eauto).
  rewrite dom_activities in Htarget, Henrolled.
  set_unfold in Htarget. set_unfold in Henrolled.
  destruct_or!; subst; try done;
    injection Hsome as <-; cbn in Hin; set_unfold in Hin;
    destruct_or!; subst; reflexivity.
Qed.

(** C9. The duplicate check looks at the named activity's participants
    only: what a signup answers depends on nothing but that activity's
    entry, so an email enrolled in one activity can still sign up for another
    activity it is not in, with status 200, and is then in both.  For the
    seed, each seeded email can sign up for each of the two activities it is
    not seeded in; "michael@mergington.edu" for "Gym Class" is one case. *)
Theorem signup_scoped_per_activity :
  (∀ (st : gmap string Activity) (enrolled target email : string)
     (activity other : Activity),
     enrolled ≠ target →
     st !! enrolled = Some activity →
     email ∈ participants activity →
     st !! target = Some other →
     email ∉ participants other →
     let '(response, st') := serve (PostSignup target email) st in
     response
     = {| status := 200;
          body := JObject {[ "message" :=
            JString ("Signed up " +:+ email +:+ " for " +:+ target) ]} |}
     ∧ st' !! enrolled = Some activity
     ∧ participants <$> st' !! target = Some (participants other ++ [email]))
  ∧ (∀ (st1 st2 : gmap string Activity) (target email : string),
       st1 !! target = st2 !! target →
       (serve (PostSignup target email) st1).1
       = (serve (PostSignup target email) st2).1)
  ∧ (∀ (enrolled target email : string) (activity : Activity),
       activities !! enrolled = Some activity →
       email ∈ participants activity →
       target ∈ dom activities →
       target ≠ enrolled →
       status (serve (PostSignup target email) activities).1 = 200)
  ∧ status (serve (PostSignup "Gym Class" "michael@mergington.edu") activities).1 = 200.
Proof.
  split; [| split; [| split; [apply seed_cross_signup | reflexivity]]].
  - intros st enrolled target email activity other Hne Henrolled Hin Htarget Hnotin.
    rewrite (serve_fresh _ _ _ _ Htarget Hnotin).
    split; [done |]. split.
    + by rewrite lookup_insert_ne.
    + by rewrite lookup_insert_eq.
  - intros st1 st2 target email Hsame. cbn.
    pose proof (signup_reads_one_activity st1 st2 target email Hsame) as Hfst.
    destruct (signup_for_activity target email st1),
             (signup_for_activity target email st2).
    cbn in Hfst. by rewrite Hfst.
Qed.

Lemma signup_scoped_per_activity_witness :
  ("Chess Club" ≠ "Gym Class"
   ∧ participants <$> activities !! "Chess Club"
     = Some ["michael@mergington.edu"; "daniel@mergington.edu"]
   ∧ participants <$> activities !! "Gym Class"
     = Some ["john@mergington.edu"; "olivia@mergington.edu"])
  ∧ (serve (PostSignup "Gym Class" "michael@mergington.edu") activities).1
    = {| status := 200;
         body := JObject {[ "message" :=
           JString "Signed up michael@mergington.edu for Gym Class" ]} |}
  ∧ participants <$>
      (serve (PostSignup "Gym Class" "michael@mergington.edu") activities).2
        !! "Gym Class"
    = Some ["john@mergington.edu"; "olivia@mergington.edu"; "michael@mergington.edu"].
Proof.
  assert (Hne : "Chess Club" ≠ "Gym Class") by discriminate.
  assert (Hchess : activities !! "Chess Club"
    = Some {| description := "Learn strategies and compete in chess tournaments";
              schedule := "Fridays, 3:30 PM - 5:00 PM";
              max_participants := 12;
              participants := ["michael@mergington.edu"; "daniel@mergington.edu"] |})
    by reflexivity.
  assert (Hgym : activities !! "Gym Class"
    = Some {| description := "Physical education and sports activities";
              schedule := "Mondays, Wednesdays, Fridays, 2:00 PM - 3:00 PM";
              max_participants := 30;
              participants := ["john@mergington.edu"; "olivia@mergington.edu"] |})
    by reflexivity.
  assert (Hin : "michael@mergington.edu"
    ∈ ["michael@mergington.edu"; "daniel@mergington.edu"])
    by (apply (bool_decide_unpack _); vm_compute; exact I).
  assert (Hnotin : "michael@mergington.edu"
    ∉ ["john@mergington.edu"; "olivia@mergington.edu"])
    by (apply (bool_decide_unpack _); vm_compute; exact I).
  pose proof (proj1 signup_scoped_per_activity activities "Chess Club" "Gym Class"
                "michael@mergington.edu" _ _ Hne Hchess Hin Hgym Hnotin) as Hthm.
  destruct (serve (PostSignup "Gym Class" "michael@mergington.edu") activities)
    as [response st'].
  destruct Hthm as (Hresponse & _ & Hparts).
  split; [split; [exact Hne | split; [by rewrite Hchess | by rewrite Hgym]] |].
  split; [exact Hresponse | exact Hparts].
Defined.

(** ** Exact lookup of the activity name *)

(** C10. The activity is looked up by exact string equality, with no case
    folding, trimming or other normalisation: a name that differs from
    every stored key gets status 404 with detail "Activity not found" and
    leaves the store alone, and 404 is sent for no other name.  Against the
    seed, "chess club" and "Chess Club " (trailing space) are both
    unknown. *)
Theorem signup_lookup_exact :
  (∀ (st : gmap string Activity) (activity_name email : string),
     (∀ key, key ∈ dom st → key ≠ activity_name) →
     serve (PostSignup activity_name email) st
     = ({| status := 404;
           body := JObject {[ "detail" := JString "Activity not found" ]} |},
        st))
  ∧ (∀ (st : gmap string Activity) (activity_name email : string),
       status (serve (PostSignup activity_name email) st).1 = 404
       ↔ (∀ key, key ∈ dom st → key ≠ activity_name))
  ∧ (∀ email : string,
       serve (PostSignup "chess club" email) activities
       = ({| status := 404;
             body := JObject {[ "detail" := JString "Activity not found" ]} |},
          activities))
  ∧ (∀ email : string,
       serve (PostSignup "Chess Club " email) activities
       = ({| status := 404;
             body := JObject {[ "detail" := JString "Activity not found" ]} |},
          activities)).
Proof.
  assert (Hunknown : ∀ (st : gmap string Activity) (activity_name email : string),
     (∀ key, key ∈ dom st → key ≠ activity_name) →
     serve (PostSignup activity_name email) st = (not_found, st)).
  { intros st activity_name email Hkeys. apply serve_unknown.
    apply not_elem_of_dom. intros Hkey. by apply (Hkeys activity_name). }
  split; [exact Hunknown |]. split; [| split].
  - intros st activity_name email. split.
    + intros Hstatus key Hkey ->.
      apply elem_of_dom in Hkey as [activity Hsome].
      destruct (decide (email ∈ participants activity)) as [Hin | Hnotin].
      * by rewrite (serve_present _ _ _ _ Hsome Hin) in Hstatus.
      * by rewrite (serve_fresh _ _ _ _ Hsome Hnotin) in Hstatus.
    + intros Hkeys. by rewrite Hunknown.
  - intros email. by apply serve_unknown.
  - intros email. by apply serve_unknown.
Qed.

Lemma signup_lookup_exact_witness :
  (∀ key, key ∈ dom activities → key ≠ "chess club")
  ∧ serve (PostSignup "chess club" "student@mergington.edu") activities
    = ({| status := 404;
          body := JObject {[ "detail" := JString "Activity not found" ]} |},
       activities).
Proof.
  assert (Hkeys : ∀ key, key ∈ dom activities → key ≠ "chess club").
  { intros key Hkey ->. apply elem_of_dom in Hkey as [activity Hsome].
    vm_compute in Hsome. discriminate Hsome. }
  split; [exact Hkeys |].
  exact (proj1 signup_lookup_exact activities "chess club"
           "student@mergington.edu" Hkeys).
Defined.

(** ** Sequences of requests *)

Lemma set_participants_same (activity : Activity) :
  set_participants (participants activity) activity = activity.
Proof. by destruct activity. Qed.

Lemma serve_lookup (req : request) (st : gmap string Activity) (name : string) :
  (serve req st).2 !! name
  = (λ activity,
       set_participants
         (foldl enroll (participants activity) (signups_for name [req])) activity)
    <$> st !! name.
Proof.
  destruct req as [| target email]; cbn.
  - destruct (st !! name) as [activity |]; cbn; [| done].
    by rewrite set_participants_same.
  - unfold signup_for_activity.
    destruct (decide (target = name)) as [-> | Hne]; cbn.
    + destruct (st !! name) as [activity |] eqn:Hsome; cbn; [| by rewrite Hsome].
      unfold enroll.
      destruct (decide (email ∈ participants activity)); cbn.
      * by rewrite Hsome, set_participants_same.
      * by rewrite lookup_insert_eq.
    + assert (Hkeep : (λ activity, set_participants (participants activity) activity)
                        <$> st !! name = st !! name).
      { destruct (st !! name) as [activity |]; cbn; [| done].
        by rewrite set_participants_same. }
      rewrite Hkeep.
      destruct (st !! target) as [activity |]; cbn; [| done].
      destruct (decide (email ∈ participants activity)); cbn; [done |].
      by rewrite lookup_insert_ne.
Qed.

Lemma run_cons (req : request) (reqs : list request) (st : gmap string Activity) :
  run (req :: reqs) st = run reqs (serve req st).2.
Proof. done. Qed.

Lemma signups_for_cons (name : string) (req : request) (reqs : list request) :
  signups_for name (req :: reqs) = signups_for name [req] ++ signups_for name reqs.
Proof.
  unfold signups_for. cbn. destruct req as [| target email]; [done |].
  by destruct (decide (target = name)).
Qed.

Lemma run_lookup_fold (reqs : list request) (st : gmap string Activity)
    (name : string) :
  run reqs st !! name
  = (λ activity,
       set_participants
         (foldl enroll (participants activity) (signups_for name reqs)) activity)
    <$> st !! name.
Proof.
  revert st. induction reqs as [| req reqs IH]; intros st.
  - cbn. destruct (st !! name) as [activity |]; cbn; [| done].
    by rewrite set_participants_same.
  - rewrite run_cons, IH, serve_lookup, (signups_for_cons name req reqs).
    destruct (st !! name) as [activity |]; cbn; [| done].
    by rewrite foldl_app.
Qed.

Lemma elem_of_enroll (emails : list string) (email x : string) :
  x ∈ enroll emails email ↔ x ∈ emails ∨ x = email.
Proof.
  unfold enroll. destruct (decide (email ∈ emails)) as [Hin | Hnotin].
  - split; [by left | by intros [? | ->]].
  - by rewrite elem_of_app, list_elem_of_singleton.
Qed.

Lemma elem_of_foldl_enroll (news emails : list string) (x : string) :
  x ∈ foldl enroll emails news ↔ x ∈ emails ∨ x ∈ news.
Proof.
  revert emails. induction news as [| email news IH]; intros emails; cbn.
  - rewrite elem_of_nil. tauto.
  - rewrite IH, elem_of_enroll, elem_of_cons. tauto.
Qed.

Lemma prefix_enroll (emails : list string) (email : string) :
  emails `prefix_of` enroll emails email.
Proof.
  unfold enroll. destruct (decide (email ∈ emails)); [done |].
  by apply prefix_app_r.
Qed.

Lemma prefix_foldl_enroll (news emails : list string) :
  emails `prefix_of` foldl enroll emails news.
Proof.
  revert emails. induction news as [| email news IH]; intros emails; cbn; [done |].
  etrans; [apply prefix_enroll | apply IH].
Qed.

Lemma NoDup_foldl_enroll (news emails : list string) :
  NoDup emails → NoDup (foldl enroll emails news).
Proof.
  revert emails. induction news as [| email news IH]; intros emails Hnodup; cbn;
    [done |].
  apply IH. unfold enroll. destruct (decide (email ∈ emails)) as [| Hnotin]; [done |].
  apply NoDup_app. split; [done |]. split; [| apply NoDup_singleton].
  intros x Hx ->%list_elem_of_singleton. by apply Hnotin.
Qed.

(** X1. The store after any sequence of requests, entry by entry: a name
    that was no key is still no key, and a key keeps its entry except that
    its participants are the old ones followed by the emails of the signup
    requests for that name, in request order, each email taken the first
    time only and only if it was not enrolled already. *)
Theorem run_lookup (reqs : list request) (st : gmap string Activity) (name : string) :
  run reqs st !! name
  = (λ activity,
       {| description := description activity;
          schedule := schedule activity;
          max_participants := max_participants activity;
          participants :=
            foldl (λ emails email,
                     if decide (email ∈ emails) then emails else emails ++ [email])
                  (participants activity) (signups_for name reqs) |})
    <$> st !! name.
Proof. apply run_lookup_fold. Qed.

(** X2. No sequence of requests adds, removes or renames an activity, nor
    changes a description, a schedule or a [max_participants]; participants
    lists only grow at their end, so whoever was enrolled stays enrolled, at
    the same position. *)
Theorem run_frame (reqs : list request) (st : gmap string Activity) :
  dom (run reqs st) = dom st
  ∧ ∀ name activity,
      st !! name = Some activity →
      ∃ activity',
        run reqs st !! name = Some activity'
        ∧ description activity' = description activity
        ∧ schedule activity' = schedule activity
        ∧ max_participants activity' = max_participants activity
        ∧ participants activity `prefix_of` participants activity'
        ∧ (∀ i email, participants activity !! i = Some email →
                      participants activity' !! i = Some email).
Proof.
  split.
  - apply set_eq. intros name. rewrite !elem_of_dom, run_lookup_fold.
    by rewrite fmap_is_Some.
  - intros name activity Hsome. rewrite run_lookup_fold, Hsome. cbn.
    eexists. split; [reflexivity |]. cbn. repeat split.
    + apply prefix_foldl_enroll.
    + intros i email Hi.
      destruct (prefix_foldl_enroll (signups_for name reqs) (participants activity))
        as [rest ->].
      by apply lookup_app_l_Some.
Qed.

Lemma run_frame_witness :
  let reqs := [PostSignup "Chess Club" "new_student@mergington.edu"; GetActivities;
               PostSignup "No Club" "new_student@mergington.edu";
               PostSignup "Chess Club" "daniel@mergington.edu"] in
  (participants <$> activities !! "Chess Club"
     = Some ["michael@mergington.edu"; "daniel@mergington.edu"])
  ∧ dom (run reqs activities) = dom activities
  ∧ max_participants <$> run reqs activities !! "Chess Club" = Some 12
  ∧ (participants <$> run reqs activities !! "Chess Club") ≫= (.!! 1%nat)
    = Some "daniel@mergington.edu".
Proof.
  cbv zeta.
  assert (Hsome : activities !! "Chess Club"
    = Some {| description := "Learn strategies and compete in chess tournaments";
              schedule := "Fridays, 3:30 PM - 5:00 PM";
              max_participants := 12;
              participants := ["michael@mergington.edu"; "daniel@mergington.edu"] |})
    by reflexivity.
  destruct (run_frame
              [PostSignup "Chess Club" "new_student@mergington.edu"; GetActivities;
               PostSignup "No Club" "new_student@mergington.edu";
               PostSignup "Chess Club" "daniel@mergington.edu"] activities)
    as [Hdom Hentries].
  destruct (Hentries _ _ Hsome) as (activity' & Hsome' & _ & _ & Hmax & _ & Hkeep).
  split; [by rewrite Hsome |]. split; [exact Hdom |].
  rewrite Hsome'. cbn. split; [by rewrite Hmax |].
  by apply (Hkeep 1%nat).
Defined.

(** X3. After any sequence of requests, an email is among an activity's
    participants exactly when it was there before or some request of the
    sequence signed it up for that activity; and a duplicate-free list is
    still duplicate-free. *)
Theorem run_membership (reqs : list request) (st : gmap string Activity)
    (name : string) (activity : Activity) :
  st !! name = Some activity →
  ∃ activity',
    run reqs st !! name = Some activity'
    ∧ (∀ email,
         email ∈ participants activity'
         ↔ email ∈ participants activity ∨ PostSignup name email ∈ reqs)
    ∧ (NoDup (participants activity) → NoDup (participants activity')).
Proof.
  intros Hsome. rewrite run_lookup_fold, Hsome. cbn.
  eexists. split; [reflexivity |]. cbn. split.
  - intros email. rewrite elem_of_foldl_enroll.
    assert (Hreq : email ∈ signups_for name reqs ↔ PostSignup name email ∈ reqs).
    { unfold signups_for. rewrite list_elem_of_omap. split.
      - intros ([| target e] & Hin & Heq); [done |].
        destruct (decide (target = name)) as [-> |]; [| done].
        by injection Heq as ->.
      - intros Hin. exists (PostSignup name email). split; [done |].
        by rewrite decide_True. }
    by rewrite Hreq.
  - apply NoDup_foldl_enroll.
Qed.

Lemma run_membership_witness :
  let reqs := [PostSignup "Gym Class" "emma@mergington.edu"; GetActivities;
               PostSignup "Chess Club" "new_student@mergington.edu"] in
  (participants <$> activities !! "Gym Class"
     = Some ["john@mergington.edu"; "olivia@mergington.edu"])
  ∧ ∃ activity',
      run reqs activities !! "Gym Class" = Some activity'
      ∧ "emma@mergington.edu" ∈ participants activity'
      ∧ "new_student@mergington.edu" ∉ participants activity'.
Proof.
  cbv zeta.
  assert (Hsome : activities !! "Gym Class"
    = Some {| description := "Physical education and sports activities";
              schedule := "Mondays, Wednesdays, Fridays, 2:00 PM - 3:00 PM";
              max_participants := 30;
              participants := ["john@mergington.edu"; "olivia@mergington.edu"] |})
    by reflexivity.
  destruct (run_membership
              [PostSignup "Gym Class" "emma@mergington.edu"; GetActivities;
               PostSignup "Chess Club" "new_student@mergington.edu"]
              activities "Gym Class" _ Hsome) as (activity' & Hsome' & Hmem & _).
  split; [by rewrite Hsome |].
  exists activity'. split; [exact Hsome' |]. split.
  - apply Hmem. right. apply (bool_decide_unpack _). vm_compute. exact I.
  - intros Hin. apply Hmem in Hin as [Hin | Hin].
    + revert Hin. apply (bool_decide_unpack _). vm_compute. exact I.
    + revert Hin. apply (bool_decide_unpack _). vm_compute. exact I.
Defined.

(** ** Pairs of signups *)

Lemma serve_reads_one_activity (st1 st2 : gmap string Activity)
    (target email : string) :
  st1 !! target = st2 !! target →
  (serve (PostSignup target email) st1).1 = (serve (PostSignup target email) st2).1.
Proof.
  intros Hsame. cbn. unfold signup_for_activity. rewrite Hsame.
  destruct (st2 !! target) as [activity |]; [| done].
  by destruct (decide (email ∈ participants activity)).
Qed.

Lemma serve_other_lookup (st : gmap string Activity) (target email name : string) :
  target ≠ name →
  (serve (PostSignup target email) st).2 !! name = st !! name.
Proof.
  intros Hne. rewrite serve_lookup. cbn. rewrite decide_False by done. cbn.
  destruct (st !! name) as [activity |]; cbn; [| done].
  by rewrite set_participants_same.
Qed.

Lemma append_participant_neq (email : string) (activity : Activity) :
  append_participant email activity ≠ activity.
Proof.
  intros Heq. apply (f_equal (length ∘ participants)) in Heq. cbn in Heq.
  rewrite length_app in Heq. cbn in Heq. lia.
Qed.

(** X4. Sending the same signup a second time never enrols anyone: the
    second call leaves the store as the first call left it and answers 400
    "Student is already signed up" when the activity exists and 404
    "Activity not found" when it does not, whatever the first call
    answered. *)
Theorem signup_repeat (st : gmap string Activity) (activity_name email : string) :
  let '(_, st1) := serve (PostSignup activity_name email) st in
  let '(second, st2) := serve (PostSignup activity_name email) st1 in
  st2 = st1
  ∧ second
    = (if decide (activity_name ∈ dom st)
       then {| status := 400;
               body := JObject {[ "detail" := JString "Student is already signed up" ]} |}
       else {| status := 404;
               body := JObject {[ "detail" := JString "Activity not found" ]} |}).
Proof.
  destruct (st !! activity_name) as [activity |] eqn:Hsome.
  - rewrite decide_True by (apply elem_of_dom; eauto).
    destruct (decide (email ∈ participants activity)) as [Hin | Hnotin].
    + rewrite (serve_present _ _ _ _ Hsome Hin).
      by rewrite (serve_present _ _ _ _ Hsome Hin).
    + rewrite (serve_fresh _ _ _ _ Hsome Hnotin).
      erewrite serve_present; [done | apply lookup_insert_eq |].
      cbn. apply elem_of_app. right. by apply list_elem_of_singleton.
  - rewrite decide_False by (by apply not_elem_of_dom).
    rewrite (serve_unknown _ _ _ Hsome). by rewrite (serve_unknown _ _ _ Hsome).
Qed.

(** X5. Signups for two different activities do not interfere: in either
    order each call gets the same response and the store ends up the
    same. *)
Theorem signup_commute (st : gmap string Activity)
    (name1 email1 name2 email2 : string) :
  name1 ≠ name2 →
  let '(first, st1) := serve (PostSignup name1 email1) st in
  let '(second, st12) := serve (PostSignup name2 email2) st1 in
  let '(second', st2) := serve (PostSignup name2 email2) st in
  let '(first', st21) := serve (PostSignup name1 email1) st2 in
  first = first' ∧ second = second' ∧ st12 = st21.
Proof.
  intros Hne.
  pose proof (serve_other_lookup st name1 email1 name2 Hne) as H12.
  pose proof (serve_other_lookup st name2 email2 name1 (not_eq_sym Hne)) as H21.
  pose proof (serve_reads_one_activity _ _ name2 email2 H12) as Hsecond.
  pose proof (serve_reads_one_activity _ _ name1 email1 H21) as Hfirst.
  assert (Hstate :
    (serve (PostSignup name2 email2) (serve (PostSignup name1 email1) st).2).2
    = (serve (PostSignup name1 email1) (serve (PostSignup name2 email2) st).2).2).
  { apply map_eq. intros name.
    change ((serve (PostSignup name2 email2) (serve (PostSignup name1 email1) st).2).2)
      with (run [PostSignup name1 email1; PostSignup name2 email2] st).
    change ((serve (PostSignup name1 email1) (serve (PostSignup name2 email2) st).2).2)
      with (run [PostSignup name2 email2; PostSignup name1 email1] st).
    rewrite !run_lookup_fold. unfold signups_for. cbn.
    destruct (decide (name1 = name)) as [<- |]; [| done].
    by rewrite decide_False by (by apply not_eq_sym). }
  destruct (serve (PostSignup name1 email1) st) as [first st1].
  destruct (serve (PostSignup name2 email2) st) as [second' st2].
  cbn [fst snd] in *.
  destruct (serve (PostSignup name2 email2) st1) as [second st12].
  destruct (serve (PostSignup name1 email1) st2) as [first' st21].
  cbn [fst snd] in *. by subst.
Qed.

Lemma signup_commute_witness :
  "Chess Club" ≠ "Gym Class"
  ∧ run [PostSignup "Chess Club" "emma@mergington.edu";
         PostSignup "Gym Class" "michael@mergington.edu"] activities
    = run [PostSignup "Gym Class" "michael@mergington.edu";
           PostSignup "Chess Club" "emma@mergington.edu"] activities.
Proof.
  assert (Hne : "Chess Club" ≠ "Gym Class") by discriminate.
  split; [exact Hne |].
  pose proof (signup_commute activities "Chess Club" "emma@mergington.edu"
                "Gym Class" "michael@mergington.edu" Hne) as Hthm.
  unfold run. cbn [foldl].
  destruct (serve (PostSignup "Chess Club" "emma@mergington.edu") activities)
    as [first st1].
  destruct (serve (PostSignup "Gym Class" "michael@mergington.edu") activities)
    as [second' st2].
  cbn [snd].
  destruct (serve (PostSignup "Gym Class" "michael@mergington.edu") st1)
    as [second st12].
  destruct (serve (PostSignup "Chess Club" "emma@mergington.edu") st2)
    as [first' st21].
  exact (proj2 (proj2 Hthm)).
Defined.

(** X6. Within one activity the order of signups shows: two different
    emails, neither enrolled yet, both get in whichever comes first, and the
    participants list ends with them in the order they came, so the two
    orders leave different stores. *)
Theorem signup_order_observable (st : gmap string Activity)
    (activity_name email1 email2 : string) (activity : Activity) :
  st !! activity_name = Some activity →
  email1 ∉ participants activity →
  email2 ∉ participants activity →
  email1 ≠ email2 →
  let forth := run [PostSignup activity_name email1; PostSignup activity_name email2] st in
  let back := run [PostSignup activity_name email2; PostSignup activity_name email1] st in
  participants <$> forth !! activity_name
    = Some (participants activity ++ [email1; email2])
  ∧ participants <$> back !! activity_name
    = Some (participants activity ++ [email2; email1])
  ∧ forth ≠ back.
Proof.
  intros Hsome Hnotin1 Hnotin2 Hne. cbv zeta.
  assert (Hforth : participants <$>
      run [PostSignup activity_name email1; PostSignup activity_name email2] st
        !! activity_name
    = Some (participants activity ++ [email1; email2])).
  { rewrite run_lookup_fold, Hsome. unfold signups_for. cbn.
    rewrite !decide_True by done. cbn. unfold enroll.
    rewrite (decide_False (P := email1 ∈ _)) by done.
    rewrite decide_False; [by rewrite <- app_assoc |].
    rewrite elem_of_app, list_elem_of_singleton. intros [? | ?]; [done | congruence]. }
  assert (Hback : participants <$>
      run [PostSignup activity_name email2; PostSignup activity_name email1] st
        !! activity_name
    = Some (participants activity ++ [email2; email1])).
  { rewrite run_lookup_fold, Hsome. unfold signups_for. cbn.
    rewrite !decide_True by done. cbn. unfold enroll.
    rewrite (decide_False (P := email2 ∈ _)) by done.
    rewrite decide_False; [by rewrite <- app_assoc |].
    rewrite elem_of_app, list_elem_of_singleton. intros [? | ?]; [done | congruence]. }
  split; [exact Hforth |]. split; [exact Hback |].
  intros Heq. rewrite Heq, Hback in Hforth.
  injection Hforth as Hlists. apply app_inv_head in Hlists.
  injection Hlists as ? _. by apply Hne.
Qed.

Lemma signup_order_observable_witness :
  (participants <$> activities !! "Chess Club"
     = Some ["michael@mergington.edu"; "daniel@mergington.edu"]
   ∧ "a@mergington.edu" ≠ "b@mergington.edu")
  ∧ participants <$>
      run [PostSignup "Chess Club" "a@mergington.edu";
           PostSignup "Chess Club" "b@mergington.edu"] activities !! "Chess Club"
    = Some ["michael@mergington.edu"; "daniel@mergington.edu";
            "a@mergington.edu"; "b@mergington.edu"]
  ∧ participants <$>
      run [PostSignup "Chess Club" "b@mergington.edu";
           PostSignup "Chess Club" "a@mergington.edu"] activities !! "Chess Club"
    = Some ["michael@mergington.edu"; "daniel@mergington.edu";
            "b@mergington.edu"; "a@mergington.edu"].
Proof.
  assert (Hsome : activities !! "Chess Club"
    = Some {| description := "Learn strategies and compete in chess tournaments";
              schedule := "Fridays, 3:30 PM - 5:00 PM";
              max_participants := 12;
              participants := ["michael@mergington.edu"; "daniel@mergington.edu"] |})
    by reflexivity.
  assert (Hnotin1 : "a@mergington.edu"
    ∉ ["michael@mergington.edu"; "daniel@mergington.edu"])
    by (apply (bool_decide_unpack _); vm_compute; exact I).
  assert (Hnotin2 : "b@mergington.edu"
    ∉ ["michael@mergington.edu"; "daniel@mergington.edu"])
    by (apply (bool_decide_unpack _); vm_compute; exact I).
  assert (Hne : "a@mergington.edu" ≠ "b@mergington.edu") by discriminate.
  destruct (signup_order_observable activities "Chess Club" "a@mergington.edu"
              "b@mergington.edu" _ Hsome Hnotin1 Hnotin2 Hne) as (Hforth & Hback & _).
  split; [split; [by rewrite Hsome | exact Hne] |].
  split; [exact Hforth | exact Hback].
Defined.

(** X7. A signup is answered with status 200, 400 or 404 and nothing else,
    and the store is changed exactly by the calls answered with 200: a
    rejected signup writes nothing, an accepted one always does. *)
Theorem signup_status_cases (st : gmap string Activity) (activity_name email : string) :
  let '(response, st') := serve (PostSignup activity_name email) st in
  (status response = 200 ∨ status response = 400 ∨ status response = 404)
  ∧ (status response = 200 ↔ st' ≠ st)
  ∧ (status response = 200 ↔
       ∃ activity, st !! activity_name = Some activity ∧ email ∉ participants activity).
Proof.
  destruct (st !! activity_name) as [activity |] eqn:Hsome.
  - destruct (decide (email ∈ participants activity)) as [Hin | Hnotin].
    + rewrite (serve_present _ _ _ _ Hsome Hin). cbn.
      split; [auto |]. split; [done |].
      split; [done |]. intros (activity' & Hsome' & Hnotin). congruence.
    + rewrite (serve_fresh _ _ _ _ Hsome Hnotin). cbn.
      split; [auto |]. split; [| split; [intros _; by exists activity | done]].
      split; [| done]. intros _ Heq.
      apply (f_equal (.!! activity_name)) in Heq.
      rewrite lookup_insert_eq, Hsome in Heq. injection Heq as Heq.
      by apply append_participant_neq in Heq.
  - rewrite (serve_unknown _ _ _ Hsome). cbn.
    split; [auto |]. split; [done |]. split; [done |].
    intros (activity & Hsome' & _). congruence.
Qed.

(** ** The [reset_activities] fixture *)

Lemma snapshot_same (st : gmap string Activity) : snapshot st = st.
Proof.
  apply map_eq. intros name. unfold snapshot. rewrite lookup_fmap.
  destruct (st !! name) as [activity |]; cbn; [| done].
  by rewrite set_participants_same.
Qed.

Lemma dom_run (reqs : list request) (st : gmap string Activity) :
  dom (run reqs st) = dom st.
Proof.
  apply set_eq. intros name. rewrite !elem_of_dom, run_lookup_fold.
  by rewrite fmap_is_Some.
Qed.

(** What the restore loop computes, by induction on the snapshot it walks. *)
Lemma restore_result (original st : gmap string Activity) :
  match restore original st with
  | Some st' =>
      dom original ⊆ dom st
      ∧ ∀ name,
          st' !! name
          = (λ activity,
               match original !! name with
               | Some data => set_participants (participants data) activity
               | None => activity
               end) <$> st !! name
  | None => ¬ dom original ⊆ dom st
  end.
Proof.
  unfold restore.
  apply (map_fold_weak_ind (λ result (m : gmap string Activity),
    match result with
    | Some st' =>
        dom m ⊆ dom st
        ∧ ∀ name,
            st' !! name
            = (λ activity,
                 match m !! name with
                 | Some data => set_participants (participants data) activity
                 | None => activity
                 end) <$> st !! name
    | None => ¬ dom m ⊆ dom st
    end)).
  - split; [set_solver |]. intros name. rewrite lookup_empty.
    by destruct (st !! name).
  - intros name data m result Hfresh IH.
    destruct result as [st' |]; cbn.
    + destruct IH as [Hsub Hlookup].
      pose proof (Hlookup name) as Hname. rewrite Hfresh in Hname.
      destruct (st !! name) as [activity |] eqn:Hsome; cbn in Hname;
        rewrite Hname; cbn.
      * split.
        { rewrite dom_insert_L. apply union_least; [| done].
          apply singleton_subseteq_l, elem_of_dom. eauto. }
        intros other. destruct (decide (name = other)) as [<- | Hne].
        -- by rewrite !lookup_insert_eq, Hsome.
        -- by rewrite !lookup_insert_ne, Hlookup by done.
      * intros Hsub'. apply not_elem_of_dom in Hsome. apply Hsome, Hsub'.
        rewrite dom_insert_L. set_solver.
    + intros Hsub. apply IH. etrans; [| exact Hsub].
      rewrite dom_insert_L. set_solver.
Qed.

(** X8. The restore loop of the fixture either raises, exactly when the
    snapshot names an activity the store does not have, or ends with a store
    that has the same activities as before it, each with its own
    description, schedule and [max_participants], and with the snapshot's
    participants where the snapshot names the activity and its own
    participants where it does not. *)
Theorem restore_spec (original st : gmap string Activity) :
  match restore original st with
  | Some st' =>
      dom original ⊆ dom st
      ∧ ∀ name,
          st' !! name
          = (λ activity,
               {| description := description activity;
                  schedule := schedule activity;
                  max_participants := max_participants activity;
                  participants :=
                    match original !! name with
                    | Some data => participants data
                    | None => participants activity
                    end |}) <$> st !! name
  | None => ¬ dom original ⊆ dom st
  end.
Proof.
  pose proof (restore_result original st) as Hresult.
  destruct (restore original st) as [st' |]; [| done].
  destruct Hresult as [Hsub Hlookup]. split; [done |].
  intros name. rewrite Hlookup.
  destruct (st !! name) as [activity |]; cbn; [| done].
  destruct (original !! name); cbn; [done |]. by destruct activity.
Qed.

(** X9. The fixture undoes whatever the requests of a test did: a snapshot
    taken of any store, then any sequence of requests, then the restore,
    never raises and gives back the store the snapshot was taken of. *)
Theorem reset_activities_restores (reqs : list request) (st : gmap string Activity) :
  restore (snapshot st) (run reqs st) = Some st.
Proof.
  pose proof (restore_result (snapshot st) (run reqs st)) as Hresult.
  destruct (restore (snapshot st) (run reqs st)) as [st' |].
  - destruct Hresult as [_ Hlookup]. f_equal. apply map_eq. intros name.
    rewrite Hlookup, run_lookup_fold, snapshot_same.
    destruct (st !! name) as [activity |]; cbn; [| done].
    by destruct activity.
  - exfalso. apply Hresult. by rewrite snapshot_same, dom_run.
Qed.

Lemma reset_activities_each (name : test_name) :
  reset_activities (test_function name) activities = (true, Some activities).
Proof. destruct name; vm_compute; reflexivity. Qed.

(** X10. With the fixture, the tests of the module pass in every order and
    with any repetition, starting from the seed, and the session ends with
    the seed in the store.  Without the fixture the order matters:
    [test_signup_success] fails when it runs a second time. *)
Theorem session_any_order :
  (∀ names : list test_name,
     session (test_function <$> names) activities = (true, Some activities))
  ∧ (session_without_reset [test_signup_success] activities).1 = true
  ∧ (session_without_reset [test_signup_success; test_signup_success] activities).1
    = false.
Proof.
  split; [| split; vm_compute; reflexivity].
  induction names as [| name names IH]; [done |].
  rewrite fmap_cons. cbn [session]. by rewrite reset_activities_each, IH.
Qed.

(** ** What stays of the seed *)

(** X11. In every state the process can reach, the activities are the three
    seeded ones, each with its seeded description, schedule and
    [max_participants], and with its two seeded participants still first in
    the list; so every listing has exactly these three members. *)
Theorem reachable_keeps_seed (st : gmap string Activity) :
  reachable st →
  dom st = {[ "Chess Club"; "Programming Class"; "Gym Class" ]}
  ∧ dom (json_members (body (serve GetActivities st).1))
    = {[ "Chess Club"; "Programming Class"; "Gym Class" ]}
  ∧ ∀ name seed,
      activities !! name = Some seed →
      ∃ activity,
        st !! name = Some activity
        ∧ description activity = description seed
        ∧ schedule activity = schedule seed
        ∧ max_participants activity = max_participants seed
        ∧ participants seed `prefix_of` participants activity.
Proof.
  intros [reqs ->]%reachable_run.
  assert (Hdom : dom (run reqs activities)
                 = {[ "Chess Club"; "Programming Class"; "Gym Class" ]})
    by (by rewrite dom_run, dom_activities).
  split; [exact Hdom |]. split.
  - cbn. by rewrite dom_fmap_L.
  - intros name seed Hsome. rewrite run_lookup_fold, Hsome. cbn.
    eexists. split; [reflexivity |]. cbn. repeat split.
    apply prefix_foldl_enroll.
Qed.

Lemma reachable_keeps_seed_witness :
  let st := run [PostSignup "Gym Class" "new_student@mergington.edu"; GetActivities]
                activities in
  reachable st
  ∧ dom st = {[ "Chess Club"; "Programming Class"; "Gym Class" ]}
  ∧ max_participants <$> st !! "Gym Class" = Some 30.
Proof.
  cbv zeta.
  set (st := run [PostSignup "Gym Class" "new_student@mergington.edu"; GetActivities]
                 activities).
  assert (Hreach : reachable st).
  { exact (reachable_serve GetActivities _
             (reachable_serve (PostSignup "Gym Class" "new_student@mergington.edu") _
                reachable_seed)). }
  assert (Hsome : activities !! "Gym Class"
    = Some {| description := "Physical education and sports activities";
              schedule := "Mondays, Wednesdays, Fridays, 2:00 PM - 3:00 PM";
              max_participants := 30;
              participants := ["john@mergington.edu"; "olivia@mergington.edu"] |})
    by reflexivity.
  destruct (reachable_keeps_seed st Hreach) as (Hdom & _ & Hentries).
  destruct (Hentries _ _ Hsome) as (activity & Hsome' & _ & _ & Hmax & _).
  split; [exact Hreach |]. split; [exact Hdom |].
  rewrite Hsome'. cbn. by rewrite Hmax.
Defined.
